(** * worker-sglang: the request handler of [src/handler.py]

    A shallow embedding of [handler], of the two pydantic schemas it uses
    ([APIInput], [APIOutput]) and of the parts of the Python runtime,
    [requests] and pydantic the handler touches, followed by the properties
    of the handler.

    Conventions of the model
    - Python values that reach the handler are JSON-like: [None], [bool],
      [int], [float], [str], [list] and [dict] with [str] keys.  A [dict] is
      a [gmap string pyval]: Python compares dicts without regard to the
      order of insertion, and so does [gmap].
    - An exception is a value of [exn]; a computation either returns or
      raises, and threads the [world]: the process environment, the wall
      clock, the source of UUIDs, the SGLang server and the log of requests
      posted to it.
    - [time.time()] readings are exact rationals and the arithmetic on them
      is exact, where the code rounds the difference and the product to
      binary64; [int] truncates towards zero, as in Python.  The model's
      execution_time_ms can therefore differ by one from the code's; its
      sign cannot ([elapsed_sign_survives_rounding]), and no property below
      rests on more than the sign.  The readings are those of the wall
      clock: nothing orders two of them.
    - [requests.post] and [Response.json()] can also let through an
      exception that is not a [RequestException]: the JSON encoder's or
      decoder's [RecursionError] on deep nesting, the decoder's [ValueError]
      on an integer beyond the interpreter's digit limit.
    - [engine], the module that starts the SGLang server, is not modelled;
      the handler reads only [engine.base_url], a field of the world.
    - pydantic is version 2 (the handler calls [model_dump]); [requests] is
      2.27 or later, where [Response.json] raises
      [requests.exceptions.JSONDecodeError], a [RequestException]. *)

From Stdlib Require Import ZArith QArith Floats.PrimFloat.
From stdpp Require Import base option gmap strings list pretty.

Open Scope string_scope.
Open Scope Z_scope.

(** ** Python values *)

#[warnings="-register-all"]
Inductive pyval : Type :=
| PNone
| PBool (b : bool)
| PInt (n : Z)
| PFloat (f : PrimFloat.float)
| PStr (s : string)
| PList (l : list pyval)
| PDict (d : gmap string pyval).

(** [type(v).__name__] *)
Definition type_name (v : pyval) : string :=
  match v with
  | PNone => "NoneType"
  | PBool _ => "bool"
  | PInt _ => "int"
  | PFloat _ => "float"
  | PStr _ => "str"
  | PList _ => "list"
  | PDict _ => "dict"
  end.

Definition is_str (v : pyval) : bool :=
  match v with PStr _ => true | _ => false end.

(** ** Exceptions *)

(** One line of a pydantic [ValidationError]: the location of the offending
    field, the error type ([missing], [string_type], ...) and the input the
    error is about: the offending value, or for a missing field the mapping
    it is missing from. *)
Record line_error := LineError {
  loc : list string;
  err_type : string;
  input : pyval;
}.

(** The exceptions of [requests.exceptions] the handler can meet.  All are
    subclasses of [RequestException]. *)
Inductive request_exception :=
| TransportError (msg : string)   (* ConnectionError, Timeout, ... raised by [post] *)
| HTTPError (msg : string)        (* raised by [raise_for_status] *)
| JSONDecodeError (msg : string). (* raised by [Response.json] *)

Inductive exn :=
| KeyError (key : string)
| TypeError (msg : string)
| AttributeError (msg : string)
| ValidationError (title : string) (errors : list line_error)
| ValueError (msg : string)
| RecursionError (msg : string)
| RequestException (e : request_exception).

(** [isinstance(e, requests.exceptions.RequestException)] *)
Definition is_RequestException (e : exn) : bool :=
  match e with RequestException _ => true | _ => false end.

(** [isinstance(e, Exception)]: every exception of the model. *)
Definition is_Exception (e : exn) : bool := true.

Definition request_exception_str (e : request_exception) : string :=
  match e with
  | TransportError msg | HTTPError msg | JSONDecodeError msg => msg
  end.

(** ** Subscription and [.get] *)

(** [v[k]] for a string [k].  The texts of the [TypeError]s are CPython's. *)
Definition getitem (v : pyval) (k : string) : exn + pyval :=
  match v with
  | PDict d =>
      match d !! k with
      | Some x => inr x
      | None => inl (KeyError k)
      end
  | PStr _ => inl (TypeError "string indices must be integers, not 'str'")
  | PList _ => inl (TypeError "list indices must be integers or slices, not str")
  | _ => inl (TypeError ("'" ++ type_name v ++ "' object is not subscriptable"))
  end.

(** [v.get(k, dflt)]: only a dict has the method. *)
Definition get (v : pyval) (k : string) (dflt : pyval) : exn + pyval :=
  match v with
  | PDict d => inr (default dflt (d !! k))
  | _ => inl (AttributeError ("'" ++ type_name v ++ "' object has no attribute 'get'"))
  end.

(** ** The schemas *)

Record APIInput := mkAPIInput {
  prompt : string;
  sampling_params : gmap string pyval;
}.

Inductive Status := success | error.

Definition Status_str (s : Status) : string :=
  match s with success => "success" | error => "error" end.

Record APIOutput := mkAPIOutput {
  request_id : string;
  model_name : string;
  execution_time_ms : Z;
  status : Status;
  text_output : string;
  error_message : option string;
}.

(** pydantic validates every field and reports all the failures together. *)
Definition validate_prompt (d : gmap string pyval) : list line_error + string :=
  match d !! "prompt" with
  | None => inl [LineError ["prompt"] "missing" (PDict d)]
  | Some (PStr s) => inr s
  | Some v => inl [LineError ["prompt"] "string_type" v]
  end.

Definition validate_sampling_params (d : gmap string pyval)
  : list line_error + gmap string pyval :=
  match d !! "sampling_params" with
  | None => inr ∅                                   (* default_factory=dict *)
  | Some (PDict m) => inr m
  | Some v => inl [LineError ["sampling_params"] "dict_type" v]
  end.

(** [APIInput.parse_obj(obj)] *)
Definition parse_obj (obj : pyval) : exn + APIInput :=
  match obj with
  | PDict d =>
      match validate_prompt d, validate_sampling_params d with
      | inr p, inr sp => inr (mkAPIInput p sp)
      | inl e1, inr _ => inl (ValidationError "APIInput" e1)
      | inr _, inl e2 => inl (ValidationError "APIInput" e2)
      | inl e1, inl e2 => inl (ValidationError "APIInput" (e1 ++ e2))
      end
  | _ => inl (ValidationError "APIInput" [LineError [] "model_type" obj])
  end.

(** [APIOutput(request_id=..., ..., text_output=..., error_message=...)].
    Every argument but [text_output] has its type by construction at the
    three call sites; [text_output] is whatever the server sent and is
    validated as a [str]. *)
Definition new_APIOutput (request_id model_name : string) (execution_time_ms : Z)
    (status : Status) (text_output : pyval) (error_message : option string)
  : exn + APIOutput :=
  match text_output with
  | PStr s =>
      inr (mkAPIOutput request_id model_name execution_time_ms status s error_message)
  | _ =>
      inl (ValidationError "APIOutput"
             [LineError ["text_output"] "string_type" text_output])
  end.

Definition of_option_str (o : option string) : pyval :=
  match o with Some s => PStr s | None => PNone end.

(** [out.model_dump()] *)
Definition model_dump (out : APIOutput) : pyval :=
  PDict (<["request_id" := PStr (request_id out)]>
        (<["model_name" := PStr (model_name out)]>
        (<["execution_time_ms" := PInt (execution_time_ms out)]>
        (<["status" := PStr (Status_str (status out))]>
        (<["text_output" := PStr (text_output out)]>
        (<["error_message" := of_option_str (error_message out)]> ∅)))))).

(** ** The world *)

Record http_request := mkRequest {
  req_url : string;
  req_json : pyval;
  req_headers : gmap string string;
}.

(** What [Response.json()] finds in the body: a JSON value; text that is not
    JSON, for which it raises [requests.exceptions.JSONDecodeError]; or JSON
    the decoder gives up on with an exception that [requests] does not wrap:
    [ValueError] for an integer beyond the interpreter's digit limit,
    [RecursionError] for nesting beyond its recursion limit. *)
Inductive body :=
| BodyJson (v : pyval)
| BodyNotJson (msg : string)
| BodyIntTooLong (msg : string)
| BodyTooDeep (msg : string).

Record response := mkResponse {
  status_code : Z;
  reason : string;
  url : string;
  content : body;
}.

(** What [requests.post] does: it raises a [RequestException], it returns a
    response, or the JSON encoder exceeds the recursion limit on the payload
    and its [RecursionError], which [requests] does not wrap, comes out. *)
Inductive post_outcome :=
| PostRaises (msg : string)
| PostReturns (r : response)
| PostEscapes (msg : string).

Record world := mkWorld {
  environ : gmap string string;
  clock : nat → Q;                 (* the successive readings of time.time() *)
  clock_reads : nat;
  uuids : nat → string;            (* the successive values of str(uuid.uuid4()) *)
  uuid_reads : nat;
  base_url : string;               (* engine.base_url *)
  server : nat → http_request → post_outcome;
  sent : list http_request;
}.

(** ** Computations that return or raise *)

Inductive result (A : Type) :=
| Return (a : A)
| Raise (e : exn).
Arguments Return {A} a.
Arguments Raise {A} e.

Definition py (A : Type) : Type := world → result A * world.

Definition py_ret {A} (a : A) : py A := λ w, (Return a, w).

Definition py_bind {A B} (m : py A) (k : A → py B) : py B :=
  λ w, match m w with
       | (Return a, w') => k a w'
       | (Raise e, w') => (Raise e, w')
       end.

Definition raise {A} (e : exn) : py A := λ w, (Raise e, w).

Definition lift {A} (x : exn + A) : py A :=
  match x with inr a => py_ret a | inl e => raise e end.

Notation "'do' x <- m ; k" := (py_bind m (λ x, k))
  (at level 10, x name, m at level 100, k at level 200,
   format "'[v' 'do'  x  <-  m ; '/' k ']'").

(** [[
      try: x = body
      except C as e: return handle(e)
      return rest(x)
    ]] *)
Definition try_except {A B} (body : py A) (C : exn → bool)
    (handle : exn → py B) (rest : A → py B) : py B :=
  λ w, match body w with
       | (Return a, w') => rest a w'
       | (Raise e, w') => if C e then handle e w' else (Raise e, w')
       end.

(** ** The runtime and the libraries *)

Definition set_clock_reads (n : nat) (w : world) : world :=
  mkWorld (environ w) (clock w) n (uuids w) (uuid_reads w) (base_url w) (server w) (sent w).

Definition set_uuid_reads (n : nat) (w : world) : world :=
  mkWorld (environ w) (clock w) (clock_reads w) (uuids w) n (base_url w) (server w) (sent w).

Definition set_sent (l : list http_request) (w : world) : world :=
  mkWorld (environ w) (clock w) (clock_reads w) (uuids w) (uuid_reads w) (base_url w) (server w) l.

Definition set_environ (env : gmap string string) (w : world) : world :=
  mkWorld env (clock w) (clock_reads w) (uuids w) (uuid_reads w) (base_url w) (server w) (sent w).

(** [str(uuid.uuid4())] *)
Definition uuid4_str : py string :=
  λ w, (Return (uuids w (uuid_reads w)), set_uuid_reads (S (uuid_reads w)) w).

(** [time.time()] *)
Definition time_time : py Q :=
  λ w, (Return (clock w (clock_reads w)), set_clock_reads (S (clock_reads w)) w).

(** [os.environ.get(k, dflt)] *)
Definition environ_get (k dflt : string) : py string :=
  λ w, (Return (default dflt (environ w !! k)), w).

(** [engine.base_url] *)
Definition engine_base_url : py string := λ w, (Return (base_url w), w).

(** [int(x)] for a float [x]: truncation towards zero.  The argument is the
    exact value of the expression; the code's argument is that value rounded
    to binary64. *)
Definition int (x : Q) : Z := Z.quot (Qnum x) (Z.pos (Qden x)).

(** [requests.post(url, json=json, headers=headers)]: the call is logged and
    the server of the world answers it, or the call raises. *)
Definition requests_post (url : string) (json : pyval) (headers : gmap string string)
  : py response :=
  λ w, let rq := mkRequest url json headers in
       let w' := set_sent (sent w ++ [rq]) w in
       match server w (length (sent w)) rq with
       | PostRaises msg => (Raise (RequestException (TransportError msg)), w')
       | PostReturns r => (Return r, w')
       | PostEscapes msg => (Raise (RecursionError msg), w')
       end.

(** [Response.raise_for_status()], as [requests/models.py] has it. *)
Definition raise_for_status (r : response) : py unit :=
  if decide (400 ≤ status_code r < 500) then
    raise (RequestException (HTTPError
      (pretty (status_code r) ++ " Client Error: " ++ reason r ++ " for url: " ++ url r)))
  else if decide (500 ≤ status_code r < 600) then
    raise (RequestException (HTTPError
      (pretty (status_code r) ++ " Server Error: " ++ reason r ++ " for url: " ++ url r)))
  else py_ret tt.

(** [Response.json()] *)
Definition response_json (r : response) : py pyval :=
  match content r with
  | BodyJson v => py_ret v
  | BodyNotJson msg => raise (RequestException (JSONDecodeError msg))
  | BodyIntTooLong msg => raise (ValueError msg)
  | BodyTooDeep msg => raise (RecursionError msg)
  end.

(** ** Reading the envelope *)

(** [v[k]] when [v] is a dict that has [k]. *)
Definition field (v : pyval) (k : string) : option pyval :=
  match v with PDict d => d !! k | _ => None end.

Definition envelope_fields : gset string :=
  {[ "request_id"; "model_name"; "execution_time_ms";
     "status"; "text_output"; "error_message" ]}.

(** The keys of a dict. *)
Definition keys (v : pyval) : option (gset string) :=
  match v with PDict d => Some (dom d) | _ => None end.

Section Handler.

(** The text pydantic gives a [ValidationError]: made from the title and the
    lines of the error, it quotes the input of each line and names the
    installed version; the handler only copies it. *)
Variable validation_error_str : string → list line_error → string.

(** [str(e)], also what [f"{e}"] inserts. *)
Definition exn_str (e : exn) : string :=
  match e with
  | KeyError k => "'" ++ k ++ "'"
  | TypeError msg | AttributeError msg | ValueError msg | RecursionError msg => msg
  | ValidationError title errors => validation_error_str title errors
  | RequestException e => request_exception_str e
  end.

(** [APIInput.parse_obj(job['input'])] *)
Definition validate (job : pyval) : exn + APIInput :=
  match getitem job "input" with
  | inr job_input => parse_obj job_input
  | inl e => inl e
  end.

(** The body of the request to [/generate]: the prompt, and the caller's
    sampling parameters unpacked into a new dict in which "stream" is then
    set to [False]. *)
Definition payload_of (validated_input : APIInput) : pyval :=
  PDict (<["text" := PStr (prompt validated_input)]>
        (<["sampling_params" :=
             PDict (<["stream" := PBool false]> (sampling_params validated_input))]> ∅)).

(** [handler(job)] *)
Definition handler (job : pyval) : py pyval :=
  do request_id <- uuid4_str;
  do start_time <- time_time;
  do model_name <- environ_get "MODEL_NAME" "unknown";
  try_except (lift (validate job)) is_Exception
    (λ e,
      do end_time <- time_time;
      do error_payload <- lift (new_APIOutput request_id model_name
                                  (int ((end_time - start_time) * 1000)) error (PStr "")
                                  (Some ("Input validation failed: " ++ exn_str e)));
      py_ret (model_dump error_payload))
    (λ validated_input,
      do base <- engine_base_url;
      let generate_url := base ++ "/generate" in
      let headers : gmap string string := {["Content-Type" := "application/json"]} in
      let payload := payload_of validated_input in
      try_except
        (do response <- requests_post generate_url payload headers;
         do _ <- raise_for_status response;
         do sglang_response_data <- response_json response;
         lift (get sglang_response_data "text" (PStr "")))
        is_RequestException
        (λ e,
          do end_time <- time_time;
          do error_payload <- lift (new_APIOutput request_id model_name
                                      (int ((end_time - start_time) * 1000)) error (PStr "")
                                      (Some ("Request to SGLang server failed: " ++ exn_str e)));
          py_ret (model_dump error_payload))
        (λ generated_text,
          do end_time <- time_time;
          let execution_time_ms := int ((end_time - start_time) * 1000) in
          do success_payload <- lift (new_APIOutput request_id model_name
                                        execution_time_ms success generated_text None);
          py_ret (model_dump success_payload))).

(** ** What one invocation reads and writes *)

(** An invocation started in [w] draws one UUID, reads the environment, and
    reads the clock twice: on entry and just before it builds the envelope. *)
Definition request_id_at (w : world) : string := uuids w (uuid_reads w).
Definition model_name_at (w : world) : string :=
  default "unknown" (environ w !! "MODEL_NAME").
Definition start_time_at (w : world) : Q := clock w (clock_reads w).
Definition end_time_at (w : world) : Q := clock w (S (clock_reads w)).
Definition elapsed_ms (w : world) : Z :=
  int ((end_time_at w - start_time_at w) * 1000).

Definition envelope (w : world) (st : Status) (txt : string) (err : option string)
  : pyval :=
  model_dump (mkAPIOutput (request_id_at w) (model_name_at w) (elapsed_ms w) st txt err).

(** The one request of the invocation and the server's answer to it. *)
Definition request_of (w : world) (x : APIInput) : http_request :=
  mkRequest (base_url w ++ "/generate") (payload_of x)
            {["Content-Type" := "application/json"]}.

Definition answer (w : world) (x : APIInput) : post_outcome :=
  server w (length (sent w)) (request_of w x).

(** The world once the envelope is returned. *)
Definition finished (w : world) (posted : list http_request) : world :=
  mkWorld (environ w) (clock w) (S (S (clock_reads w))) (uuids w) (S (uuid_reads w))
          (base_url w) (server w) posted.

(** The world when an exception leaves the inference block uncaught: the
    clock was read once. *)
Definition aborted (w : world) (posted : list http_request) : world :=
  mkWorld (environ w) (clock w) (S (clock_reads w)) (uuids w) (S (uuid_reads w))
          (base_url w) (server w) posted.

(** [raise_for_status] lets the response through. *)
Definition passes (r : response) : bool :=
  negb (bool_decide (400 ≤ status_code r < 600)).

Definition http_error_str (kind : string) (r : response) : string :=
  pretty (status_code r) ++ " " ++ kind ++ " Error: " ++ reason r
    ++ " for url: " ++ url r.

(** The ways the inference block raises a [RequestException], with the text
    of the exception. *)
Inductive downstream_fails (w : world) (x : APIInput) : string → Prop :=
| Transport msg :
    answer w x = PostRaises msg →
    downstream_fails w x msg
| ClientError r :
    answer w x = PostReturns r →
    400 ≤ status_code r < 500 →
    downstream_fails w x (http_error_str "Client" r)
| ServerError r :
    answer w x = PostReturns r →
    500 ≤ status_code r < 600 →
    downstream_fails w x (http_error_str "Server" r)
| NotJson r msg :
    answer w x = PostReturns r →
    passes r = true →
    content r = BodyNotJson msg →
    downstream_fails w x msg.

(** The ways an exception that is not a [RequestException] comes out of
    [requests.post] or of [Response.json()]. *)
Inductive escapes (w : world) (x : APIInput) : exn → Prop :=
| EncoderTooDeep msg :
    answer w x = PostEscapes msg →
    escapes w x (RecursionError msg)
| DecoderIntTooLong r msg :
    answer w x = PostReturns r →
    passes r = true →
    content r = BodyIntTooLong msg →
    escapes w x (ValueError msg)
| DecoderTooDeep r msg :
    answer w x = PostReturns r →
    passes r = true →
    content r = BodyTooDeep msg →
    escapes w x (RecursionError msg).

(** The paths through [handler]: the result and the log of posted requests
    of an invocation of [handler job] started in [w]. *)
Inductive outcome (job : pyval) (w : world)
  : result pyval → list http_request → Prop :=
| Invalid e :
    validate job = inl e →
    outcome job w
      (Return (envelope w error "" (Some ("Input validation failed: " ++ exn_str e))))
      (sent w)
| Failed x detail :
    validate job = inr x →
    downstream_fails w x detail →
    outcome job w
      (Return (envelope w error ""
                 (Some ("Request to SGLang server failed: " ++ detail))))
      (sent w ++ [request_of w x])
| Generated x r m s :
    validate job = inr x →
    answer w x = PostReturns r →
    passes r = true →
    content r = BodyJson (PDict m) →
    m !! "text" = Some (PStr s) →
    outcome job w (Return (envelope w success s None)) (sent w ++ [request_of w x])
| NoText x r m :
    validate job = inr x →
    answer w x = PostReturns r →
    passes r = true →
    content r = BodyJson (PDict m) →
    m !! "text" = None →
    outcome job w (Return (envelope w success "" None)) (sent w ++ [request_of w x])
| NotObject x r v :
    validate job = inr x →
    answer w x = PostReturns r →
    passes r = true →
    content r = BodyJson v →
    type_name v ≠ "dict" →
    outcome job w
      (Raise (AttributeError ("'" ++ type_name v ++ "' object has no attribute 'get'")))
      (sent w ++ [request_of w x])
| TextNotStr x r m t :
    validate job = inr x →
    answer w x = PostReturns r →
    passes r = true →
    content r = BodyJson (PDict m) →
    m !! "text" = Some t →
    is_str t = false →
    outcome job w
      (Raise (ValidationError "APIOutput" [LineError ["text_output"] "string_type" t]))
      (sent w ++ [request_of w x])
| Escapes x e :
    validate job = inr x →
    escapes w x e →
    outcome job w (Raise e) (sent w ++ [request_of w x]).

(** ** Well-formed envelopes *)

Definition non_null (o : option pyval) : Prop := ∃ v, o = Some v ∧ v ≠ PNone.

Record well_formed (v : pyval) : Prop := WellFormed {
  wf_fields : keys v = Some envelope_fields;
  wf_status :
    field v "status" = Some (PStr "success") ∨ field v "status" = Some (PStr "error");
  wf_error_iff :
    field v "status" = Some (PStr "error") ↔ non_null (field v "error_message");
  wf_error_text :
    field v "status" = Some (PStr "error") → field v "text_output" = Some (PStr "");
  wf_success_null :
    field v "status" = Some (PStr "success") → field v "error_message" = Some PNone;
  wf_time : ∃ n, field v "execution_time_ms" = Some (PInt n) ∧ 0 ≤ n;
}.

(** The clauses of [well_formed] that hold whatever the clock does: all but
    the sign of execution_time_ms, which is still present and an integer. *)
Record well_shaped (v : pyval) : Prop := WellShaped {
  ws_fields : keys v = Some envelope_fields;
  ws_status :
    field v "status" = Some (PStr "success") ∨ field v "status" = Some (PStr "error");
  ws_error_iff :
    field v "status" = Some (PStr "error") ↔ non_null (field v "error_message");
  ws_error_text :
    field v "status" = Some (PStr "error") → field v "text_output" = Some (PStr "");
  ws_success_null :
    field v "status" = Some (PStr "success") → field v "error_message" = Some PNone;
  ws_time : ∃ n, field v "execution_time_ms" = Some (PInt n);
}.

(** The envelope of a failed call to the server. *)
Definition downstream_error (res : result pyval * world) (detail : string) : Prop :=
  ∃ v w', res = (Return v, w')
          ∧ field v "status" = Some (PStr "error")
          ∧ field v "text_output" = Some (PStr "")
          ∧ field v "error_message"
            = Some (PStr ("Request to SGLang server failed: " ++ detail)).

(** ** Which failures the handler captures *)

(** The body is what the handler expects of [/generate]: not JSON at all
    (a [RequestException]), or an object whose ["text"], if any, is a string.
    A body the decoder gives up on is not. *)
Definition expected_body (b : body) : bool :=
  match b with
  | BodyNotJson _ => true
  | BodyJson (PDict m) =>
      match m !! "text" with
      | Some t => is_str t
      | None => true
      end
  | BodyJson _ => false
  | BodyIntTooLong _ | BodyTooDeep _ => false
  end.


Definition captured (job : pyval) (w : world) : bool :=
  match validate job with
  | inl _ => true
  | inr x =>
      match answer w x with
      | PostRaises _ => true
      | PostReturns r => negb (passes r) || expected_body (content r)
      | PostEscapes _ => false
      end
  end.

(** ** Inputs that pass validation *)

(** The caller's input is a mapping with a text prompt whose sampling
    parameters are absent or a mapping. *)
Definition valid_input (job_input : pyval) : bool :=
  match job_input with
  | PDict d =>
      match d !! "prompt", d !! "sampling_params" with
      | Some (PStr _), None | Some (PStr _), Some (PDict _) => true
      | _, _ => false
      end
  | _ => false
  end.

Definition valid_job (job : pyval) : bool :=
  match job with
  | PDict j =>
      match j !! "input" with
      | Some job_input => valid_input job_input
      | None => false
      end
  | _ => false
  end.

(** ** Successive invocations *)

(** The worker calls [handler] once per job, one job after the other, in
    one process: each invocation starts in the world the previous one left,
    whether that one returned or raised. *)
Fixpoint serve (jobs : list pyval) (w : world) : list (result pyval) * world :=
  match jobs with
  | [] => ([], w)
  | job :: jobs' =>
      let (res, w1) := handler job w in
      let (ress, w2) := serve jobs' w1 in
      (res :: ress, w2)
  end.

(** The request a job gives rise to, if any. *)
Definition request_for (base : string) (job : pyval) : option http_request :=
  match validate job with
  | inr x =>
      Some (mkRequest (base ++ "/generate") (payload_of x)
              {["Content-Type" := "application/json"]})
  | inl _ => None
  end.

(** What an invocation leaves untouched. *)
Record same_process (w w' : world) : Prop := SameProcess {
  same_environ : environ w' = environ w;
  same_clock : clock w' = clock w;
  same_uuids : uuids w' = uuids w;
  same_base_url : base_url w' = base_url w;
  same_server : server w' = server w;
}.

(** A request for a complete, non-streamed generation. *)
Definition non_streaming (base : string) (rq : http_request) : Prop :=
  req_url rq = base ++ "/generate"
  ∧ req_headers rq = {["Content-Type" := "application/json"]}
  ∧ ∃ sp, field (req_json rq) "sampling_params" = Some (PDict sp)
          ∧ sp !! "stream" = Some (PBool false).

(** ** Sample jobs, servers and worlds *)

(** The job dict the worker host passes: the caller's input under ["input"]. *)
Definition job_of (job_input : pyval) : pyval :=
  PDict (<["id" := PStr "job-1"]> {["input" := job_input]}).

Definition job_say_hi : pyval :=
  job_of (PDict (<["prompt" := PStr "Say hi"]>
                  {["sampling_params" := PDict {["max_new_tokens" := PInt 5]}]})).

#[warnings="-inexact-float"]
Definition job_stream_true : pyval :=
  job_of (PDict (<["prompt" := PStr "Say hi"]>
                  {["sampling_params" :=
                      PDict (<["stream" := PBool true]>
                              {["temperature" := PFloat 0.7%float]})]})).

Definition job_no_prompt : pyval := job_of (PDict {["sampling_params" := PDict ∅]}).

Definition job_prompt_int : pyval := job_of (PDict {["prompt" := PInt 7]}).

Definition job_empty_prompt : pyval := job_of (PDict {["prompt" := PStr ""]}).

(** A server that gives every request the same answer. *)
Definition replies (code : Z) (why : string) (b : body)
  : nat → http_request → post_outcome :=
  λ _ rq, PostReturns (mkResponse code why (req_url rq) b).

Definition refuses : nat → http_request → post_outcome :=
  λ _ _, PostRaises "Connection refused".

Definition says (s : string) : body := BodyJson (PDict {["text" := PStr s]}).

(** A clock that advances one second between two readings, and one that is
    set back five seconds between two readings. *)
Definition ticking (n : nat) : Q := inject_Z (Z.of_nat n).
Definition set_back (n : nat) : Q := inject_Z (10 - 5 * Z.of_nat n).

Definition world_with (env : gmap string string) (clk : nat → Q)
    (srv : nat → http_request → post_outcome) : world :=
  mkWorld env clk 0 (λ n, "uuid-" ++ pretty n) 0 "http://0.0.0.0:30000" srv [].

(** A job without the "input" key, one whose sampling parameters are
    [None], one with keys the schema does not know. *)
Definition job_without_input : pyval := PDict {["id" := PStr "job-1"]}.

Definition job_null_params : pyval :=
  job_of (PDict (<["prompt" := PStr "Say hi"]> {["sampling_params" := PNone]})).

Definition job_extra_keys : pyval :=
  job_of (PDict (<["prompt" := PStr "Say hi"]>
                (<["sampling_params" := PDict {["max_new_tokens" := PInt 5]}]>
                 {["user" := PStr "alice"]}))).

Definition job_no_params : pyval := job_of (PDict {["prompt" := PStr "Say hi"]}).

(** What validation makes of [job_say_hi]. *)
Definition say_hi : APIInput :=
  mkAPIInput "Say hi" {["max_new_tokens" := PInt 5]}.

(** A process started with MODEL_NAME set, its server answering "Hi!". *)
Definition world_model_a : world :=
  world_with {["MODEL_NAME" := "model-a"]} ticking (replies 200 "OK" (says "Hi!")).

Definition sample_validation_error_str (title : string) (errors : list line_error)
  : string :=
  pretty (length errors) ++ " validation error for " ++ title.

(** ** Facts about the envelope and the payload *)

Lemma envelope_fields_of w st txt err :
  keys (envelope w st txt err) = Some envelope_fields
  ∧ field (envelope w st txt err) "request_id" = Some (PStr (request_id_at w))
  ∧ field (envelope w st txt err) "model_name" = Some (PStr (model_name_at w))
  ∧ field (envelope w st txt err) "execution_time_ms" = Some (PInt (elapsed_ms w))
  ∧ field (envelope w st txt err) "status" = Some (PStr (Status_str st))
  ∧ field (envelope w st txt err) "text_output" = Some (PStr txt)
  ∧ field (envelope w st txt err) "error_message" = Some (of_option_str err).
Proof. repeat split. Qed.

Lemma payload_keys x : keys (payload_of x) = Some {[ "text"; "sampling_params" ]}.
Proof. reflexivity. Qed.

Lemma payload_text x : field (payload_of x) "text" = Some (PStr (prompt x)).
Proof. reflexivity. Qed.

Lemma payload_sampling_params x :
  field (payload_of x) "sampling_params"
  = Some (PDict (<["stream" := PBool false]> (sampling_params x))).
Proof. reflexivity. Qed.

(** ** Facts about the clock *)

Lemma int_nonneg (x : Q) : (0 <= x)%Q → 0 ≤ int x.
Proof.
  unfold Qle, int. simpl. intros H.
  apply Z.quot_pos; lia.
Qed.

Lemma elapsed_ms_nonneg w : (start_time_at w <= end_time_at w)%Q → 0 ≤ elapsed_ms w.
Proof.
  intros H. apply int_nonneg.
  apply Qmult_le_0_compat; [|discriminate].
  by apply (proj1 (Qle_minus_iff _ _)).
Qed.

(** Rounding to binary64 is monotone and leaves 0 as it is; whatever is so
    keeps the sign of the elapsed time, computed as the code does: the
    difference rounded, the product by 1000 rounded, then truncated. *)
Lemma elapsed_sign_survives_rounding (rnd : Q → Q) (t0 t1 : Q) :
  (∀ a b, (a <= b)%Q → (rnd a <= rnd b)%Q) →
  (rnd 0 == 0)%Q →
  (t0 <= t1)%Q →
  0 ≤ int (rnd (rnd (t1 - t0)%Q * 1000)%Q).
Proof.
  intros Hmono H0 Hle. apply int_nonneg.
  rewrite <- H0. apply Hmono.
  apply Qmult_le_0_compat; [|discriminate].
  rewrite <- H0. apply Hmono.
  by apply (proj1 (Qle_minus_iff _ _)).
Qed.

(** ** Results *)

Lemma Return_inj {A} (a b : A) : Return a = Return b → a = b.
Proof. by intros [= ->]. Qed.

Lemma Raise_not_Return {A} (e : exn) (a : A) : Raise e ≠ Return a.
Proof. discriminate. Qed.

(** ** The paths of the handler, as equations *)

Ltac unfold_handler :=
  unfold handler, py_bind, try_except, uuid4_str, time_time, environ_get,
    engine_base_url, requests_post.

Ltac unfold_valid Hv Ha :=
  unfold_handler; rewrite Hv; cbn; unfold answer, request_of in Ha; rewrite Ha.

Lemma passes_spec r : passes r = true ↔ ¬ (400 ≤ status_code r < 600).
Proof.
  unfold passes. rewrite negb_true_iff, bool_decide_eq_false. reflexivity.
Qed.

Lemma raise_for_status_passes r w :
  passes r = true → raise_for_status r w = (Return tt, w).
Proof.
  rewrite passes_spec. intros Hp. unfold raise_for_status.
  rewrite !decide_False by lia. reflexivity.
Qed.

Lemma handler_invalid job w e :
  validate job = inl e →
  handler job w =
    (Return (envelope w error "" (Some ("Input validation failed: " ++ exn_str e))),
     finished w (sent w)).
Proof. intros Hv. unfold_handler. rewrite Hv. reflexivity. Qed.

Lemma handler_failed job w x detail :
  validate job = inr x →
  downstream_fails w x detail →
  handler job w =
    (Return (envelope w error ""
               (Some ("Request to SGLang server failed: " ++ detail))),
     finished w (sent w ++ [request_of w x])).
Proof.
  intros Hv [msg Ha | r Ha Hs | r Ha Hs | r msg Ha Hp Hc]; unfold_valid Hv Ha.
  - reflexivity.
  - unfold raise_for_status. rewrite decide_True by done. reflexivity.
  - unfold raise_for_status. rewrite decide_False by lia.
    rewrite decide_True by done. reflexivity.
  - rewrite raise_for_status_passes by done.
    unfold response_json. rewrite Hc. reflexivity.
Qed.

Lemma handler_generated job w x r m s :
  validate job = inr x →
  answer w x = PostReturns r →
  passes r = true →
  content r = BodyJson (PDict m) →
  m !! "text" = Some (PStr s) →
  handler job w =
    (Return (envelope w success s None), finished w (sent w ++ [request_of w x])).
Proof.
  intros Hv Ha Hp Hc Ht. unfold_valid Hv Ha.
  rewrite raise_for_status_passes by done.
  unfold response_json. rewrite Hc. cbn. rewrite Ht. reflexivity.
Qed.

Lemma handler_no_text job w x r m :
  validate job = inr x →
  answer w x = PostReturns r →
  passes r = true →
  content r = BodyJson (PDict m) →
  m !! "text" = None →
  handler job w =
    (Return (envelope w success "" None), finished w (sent w ++ [request_of w x])).
Proof.
  intros Hv Ha Hp Hc Ht. unfold_valid Hv Ha.
  rewrite raise_for_status_passes by done.
  unfold response_json. rewrite Hc. cbn. rewrite Ht. reflexivity.
Qed.

Lemma handler_not_object job w x r v :
  validate job = inr x →
  answer w x = PostReturns r →
  passes r = true →
  content r = BodyJson v →
  type_name v ≠ "dict" →
  handler job w =
    (Raise (AttributeError ("'" ++ type_name v ++ "' object has no attribute 'get'")),
     aborted w (sent w ++ [request_of w x])).
Proof.
  intros Hv Ha Hp Hc Hn. unfold_valid Hv Ha.
  rewrite raise_for_status_passes by done.
  unfold response_json. rewrite Hc. cbn.
  destruct v; first [reflexivity | by destruct Hn].
Qed.

Lemma handler_text_not_str job w x r m t :
  validate job = inr x →
  answer w x = PostReturns r →
  passes r = true →
  content r = BodyJson (PDict m) →
  m !! "text" = Some t →
  is_str t = false →
  handler job w =
    (Raise (ValidationError "APIOutput" [LineError ["text_output"] "string_type" t]),
     finished w (sent w ++ [request_of w x])).
Proof.
  intros Hv Ha Hp Hc Ht Hs. unfold_valid Hv Ha.
  rewrite raise_for_status_passes by done.
  unfold response_json. rewrite Hc. cbn. rewrite Ht.
  destruct t; first [discriminate Hs | reflexivity].
Qed.

Lemma handler_escapes job w x e :
  validate job = inr x →
  escapes w x e →
  handler job w = (Raise e, aborted w (sent w ++ [request_of w x])).
Proof.
  intros Hv [msg Ha | r msg Ha Hp Hc | r msg Ha Hp Hc]; unfold_valid Hv Ha.
  - reflexivity.
  - rewrite raise_for_status_passes by done.
    unfold response_json. rewrite Hc. reflexivity.
  - rewrite raise_for_status_passes by done.
    unfold response_json. rewrite Hc. reflexivity.
Qed.

(** Every path of the relation is a run of the code. *)
Lemma outcome_run job w res posted :
  outcome job w res posted →
  ∃ w', handler job w = (res, w') ∧ sent w' = posted ∧ environ w' = environ w.
Proof.
  intros [e Hv | x d Hv Hf | x r m s Hv Ha Hp Hc Ht | x r m Hv Ha Hp Hc Ht
         | x r v Hv Ha Hp Hc Hn | x r m t Hv Ha Hp Hc Ht Hs | x e Hv He].
  - rewrite (handler_invalid _ _ _ Hv). eauto.
  - rewrite (handler_failed _ _ _ _ Hv Hf). eauto.
  - rewrite (handler_generated _ _ _ _ _ _ Hv Ha Hp Hc Ht). eauto.
  - rewrite (handler_no_text _ _ _ _ _ Hv Ha Hp Hc Ht). eauto.
  - rewrite (handler_not_object _ _ _ _ _ Hv Ha Hp Hc Hn). eauto.
  - rewrite (handler_text_not_str _ _ _ _ _ _ Hv Ha Hp Hc Ht Hs). eauto.
  - rewrite (handler_escapes _ _ _ _ Hv He). eauto.
Qed.

(** Every input and every world takes one of the paths. *)
Lemma outcome_total job w : ∃ res posted, outcome job w res posted.
Proof.
  destruct (validate job) as [e|x] eqn:Hv; [eauto using outcome|].
  destruct (answer w x) as [msg|r|msg] eqn:Ha;
    [eauto using outcome, downstream_fails| |eauto using outcome, escapes].
  destruct (decide (400 ≤ status_code r < 500)) as [Hc|Hc];
    [eauto using outcome, downstream_fails|].
  destruct (decide (500 ≤ status_code r < 600)) as [Hs|Hs];
    [eauto using outcome, downstream_fails|].
  assert (passes r = true) as Hp by (apply passes_spec; lia).
  destruct (content r) as [v|msg|msg|msg] eqn:Hb;
    [|eauto using outcome, downstream_fails|eauto using outcome, escapes..].
  destruct (decide (type_name v = "dict")) as [Hd|Hd]; [|eauto using outcome].
  destruct v as [| | | | | |m]; try discriminate Hd.
  destruct (m !! "text") as [t|] eqn:Ht; [|eauto using outcome].
  destruct (is_str t) eqn:Hstr; [|eauto using outcome].
  destruct t; try discriminate Hstr. eauto using outcome.
Qed.

Lemma handler_outcome job w :
  outcome job w (fst (handler job w)) (sent (snd (handler job w))).
Proof.
  destruct (outcome_total job w) as (res & posted & Ho).
  destruct (outcome_run _ _ _ _ Ho) as (w' & -> & <- & _). exact Ho.
Qed.

Lemma handler_environ job w : environ (snd (handler job w)) = environ w.
Proof.
  destruct (outcome_total job w) as (res & posted & Ho).
  by destruct (outcome_run _ _ _ _ Ho) as (w' & -> & _ & ?).
Qed.


(** ** Validation *)

Lemma parse_obj_inr obj x :
  parse_obj obj = inr x ↔
  ∃ d, obj = PDict d
       ∧ d !! "prompt" = Some (PStr (prompt x))
       ∧ (d !! "sampling_params" = None ∧ sampling_params x = ∅
          ∨ d !! "sampling_params" = Some (PDict (sampling_params x))).
Proof.
  split.
  - destruct obj as [| | | | | |d]; try discriminate. intros H. exists d.
    unfold parse_obj, validate_prompt, validate_sampling_params in H.
    destruct (d !! "prompt") as [[]|], (d !! "sampling_params") as [[]|];
      try discriminate; injection H as <-; auto.
  - intros (d & -> & Hp & Hs).
    unfold parse_obj, validate_prompt, validate_sampling_params. rewrite Hp.
    destruct x as [p sp]; simpl in *.
    by destruct Hs as [[-> ->] | ->].
Qed.

Lemma validate_inr job x :
  validate job = inr x ↔
  ∃ j, job = PDict j ∧ ∃ job_input, j !! "input" = Some job_input
                                   ∧ parse_obj job_input = inr x.
Proof.
  unfold validate, getitem. split.
  - destruct job as [| | | | | |j]; try discriminate.
    destruct (j !! "input") as [i|] eqn:Hi; [eauto|discriminate].
  - intros (j & -> & i & -> & H). exact H.
Qed.

(** C9: for every input that validation accepts, the validated request
    carries the input's prompt string unchanged; its sampling parameters are
    the empty mapping when the key is absent and the given mapping, keys and
    values untouched, when it is present.  Conversely every input whose
    prompt is a string and whose sampling parameters are absent or a mapping
    is accepted. *)
Theorem validate_preserves_input job x :
  validate job = inr x ↔
  ∃ j d, job = PDict j
         ∧ j !! "input" = Some (PDict d)
         ∧ d !! "prompt" = Some (PStr (prompt x))
         ∧ (d !! "sampling_params" = None ∧ sampling_params x = ∅
            ∨ d !! "sampling_params" = Some (PDict (sampling_params x))).
Proof.
  rewrite validate_inr. split.
  - intros (j & -> & i & Hi & (d & -> & H)%parse_obj_inr). by exists j, d.
  - intros (j & d & -> & Hi & H). exists j. split; [done|].
    exists (PDict d). split; [done|]. apply parse_obj_inr. by exists d.
Qed.

(** C8, as the code has it: validation accepts a prompt that is text, and
    the empty text is accepted like any other.  Every job input whose prompt
    is the empty string, with sampling parameters absent or a mapping, is
    validated into a request whose prompt is the empty string. *)
Theorem validate_accepts_empty_prompt j d :
  j !! "input" = Some (PDict d) →
  d !! "prompt" = Some (PStr "") →
  (d !! "sampling_params" = None ∨ ∃ m, d !! "sampling_params" = Some (PDict m)) →
  ∃ x, validate (PDict j) = inr x ∧ prompt x = "".
Proof.
  intros Hi Hp Hs.
  assert (∃ sp, parse_obj (PDict d) = inr (mkAPIInput "" sp)) as [sp Hparse].
  { unfold parse_obj, validate_prompt, validate_sampling_params. rewrite Hp.
    destruct Hs as [-> | [m ->]]; eauto. }
  exists (mkAPIInput "" sp). split; [|reflexivity].
  apply validate_inr. eauto.
Qed.

Lemma validate_rejects j d :
  j !! "input" = Some (PDict d) →
  (d !! "prompt" = None ∨ ∃ v, d !! "prompt" = Some v ∧ is_str v = false) →
  ∃ errors, validate (PDict j) = inl (ValidationError "APIInput" errors).
Proof.
  intros Hi Hp. unfold validate, getitem. rewrite Hi.
  unfold parse_obj, validate_prompt.
  destruct Hp as [-> | (v & -> & Hv)].
  - destruct (validate_sampling_params d); eauto.
  - destruct v; try discriminate Hv; destruct (validate_sampling_params d); eauto.
Qed.

(** C4: when the input mapping has no prompt, or a prompt that is not text,
    validation fails and the handler returns an envelope with status
    "error", an empty text_output and an error_message that starts with
    "Input validation failed:"; nothing is posted to the server. *)
Theorem invalid_prompt_envelope j d w :
  j !! "input" = Some (PDict d) →
  (d !! "prompt" = None ∨ ∃ v, d !! "prompt" = Some v ∧ is_str v = false) →
  ∃ e v w',
    validate (PDict j) = inl e
    ∧ handler (PDict j) w = (Return v, w')
    ∧ field v "status" = Some (PStr "error")
    ∧ field v "text_output" = Some (PStr "")
    ∧ (∃ rest, field v "error_message"
               = Some (PStr ("Input validation failed:" ++ rest)))
    ∧ sent w' = sent w.
Proof.
  intros Hi Hp. destruct (validate_rejects _ _ Hi Hp) as [errors Hv].
  eexists _, _, _. split; [exact Hv|]. split; [exact (handler_invalid _ _ _ Hv)|].
  repeat split. by eexists (" " ++ _).
Qed.


(** ** The request to the server *)

Lemma handler_posts job w x :
  validate job = inr x →
  sent (snd (handler job w)) = (sent w ++ [request_of w x])%list.
Proof.
  intros Hv. pose proof (handler_outcome job w) as Ho.
  inversion Ho; congruence.
Qed.

(** C2: for every input that passes validation the handler posts exactly one
    request; its body has the two keys "text" and "sampling_params", "text"
    is the prompt, and "sampling_params" is the caller's mapping with
    "stream" set to false: "stream" is false whatever the caller gave, and
    every other key has the caller's value (or is absent as in the caller's
    mapping). *)
Theorem payload_forces_stream_false job w x :
  validate job = inr x →
  ∃ (rq : http_request) (sp : gmap string pyval),
    sent (snd (handler job w)) = (sent w ++ [rq])%list
    ∧ keys (req_json rq) = Some {[ "text"; "sampling_params" ]}
    ∧ field (req_json rq) "text" = Some (PStr (prompt x))
    ∧ field (req_json rq) "sampling_params" = Some (PDict sp)
    ∧ sp = <["stream" := PBool false]> (sampling_params x)
    ∧ sp !! "stream" = Some (PBool false)
    ∧ ∀ k, k ≠ "stream" → sp !! k = sampling_params x !! k.
Proof.
  intros Hv. eexists (request_of w x), _.
  split; [by apply handler_posts|].
  split; [apply payload_keys|].
  split; [apply payload_text|].
  split; [apply payload_sampling_params|].
  split; [reflexivity|].
  split; [apply lookup_insert_eq|].
  intros k Hk. by apply lookup_insert_ne.
Qed.

(** ** The answer of the server *)


Lemma downstream_fails_error job w x detail :
  validate job = inr x →
  downstream_fails w x detail →
  downstream_error (handler job w) detail.
Proof.
  intros Hv Hf. eexists _, _.
  split; [exact (handler_failed _ _ _ _ Hv Hf)|]. by repeat split.
Qed.

(** C3, as the code has it: a call that fails at the transport level and a
    call answered with a 4xx or 5xx status end in the same error outcome:
    status "error", an empty text_output and an error_message made of
    "Request to SGLang server failed: " and the text of the failure, which
    for a status is the status code followed by "Client Error" or "Server
    Error", the reason and the URL. *)
Theorem downstream_failure_envelope job w x :
  validate job = inr x →
  (∀ msg, answer w x = PostRaises msg → downstream_error (handler job w) msg)
  ∧ (∀ r, answer w x = PostReturns r →
       400 ≤ status_code r < 600 →
       ∃ kind, (kind = "Client" ∨ kind = "Server")
               ∧ downstream_error (handler job w)
                   (pretty (status_code r) ++ " " ++ kind ++ " Error: "
                      ++ reason r ++ " for url: " ++ url r)).
Proof.
  intros Hv. split.
  - intros msg Ha. eauto using downstream_fails_error, downstream_fails.
  - intros r Ha Hs. destruct (decide (status_code r < 500)).
    + exists "Client". split; [by left|].
      apply (downstream_fails_error _ _ _ _ Hv). apply ClientError; [done|lia].
    + exists "Server". split; [by right|].
      apply (downstream_fails_error _ _ _ _ Hv). apply ServerError; [done|lia].
Qed.

(** ** Returning normally *)

Lemma captured_not_raise job w e posted :
  captured job w = true → ¬ outcome job w (Raise e) posted.
Proof.
  unfold captured. intros Hc Ho. remember (Raise e) as res eqn:Hres.
  destruct Ho as [e' Hv | x d Hv Hf | x r m s Hv Ha Hp Hb Ht | x r m Hv Ha Hp Hb Ht
                 | x r v Hv Ha Hp Hb Hn | x r m t Hv Ha Hp Hb Ht Hs | x e' Hv He];
    try discriminate Hres; rewrite Hv in Hc.
  - rewrite Ha, Hp, Hb in Hc; simpl in Hc.
    destruct v; try discriminate Hc. by destruct Hn.
  - rewrite Ha, Hp, Hb in Hc; simpl in Hc. rewrite Ht in Hc. congruence.
  - destruct He as [msg Ha | r msg Ha Hp Hb | r msg Ha Hp Hb]; rewrite Ha in Hc;
      [discriminate Hc | rewrite Hp, Hb in Hc; discriminate Hc..].
Qed.




(** ** The envelope *)

Lemma well_formed_error w msg :
  0 ≤ elapsed_ms w → well_formed (envelope w error "" (Some msg)).
Proof.
  intros Ht. split.
  - reflexivity.
  - right. reflexivity.
  - split; [intros _; eexists; split; [reflexivity|discriminate] | reflexivity].
  - reflexivity.
  - intros H. discriminate H.
  - exists (elapsed_ms w). split; [reflexivity|exact Ht].
Qed.

Lemma well_formed_success w s :
  0 ≤ elapsed_ms w → well_formed (envelope w success s None).
Proof.
  intros Ht. split.
  - reflexivity.
  - left. reflexivity.
  - split; [intros H; discriminate H|].
    intros (v & Hv & Hnull). destruct Hnull. injection Hv as <-. reflexivity.
  - intros H. discriminate H.
  - reflexivity.
  - exists (elapsed_ms w). split; [reflexivity|exact Ht].
Qed.

(** Whatever the handler returns is one of two envelopes. *)
Lemma handler_returns_envelope job w v w' :
  handler job w = (Return v, w') →
  (∃ msg, v = envelope w error "" (Some msg)) ∨ (∃ s, v = envelope w success s None).
Proof.
  intros Hrun. pose proof (handler_outcome job w) as Ho. rewrite Hrun in Ho.
  cbn [fst snd] in Ho. remember (Return v) as res eqn:Hres.
  destruct Ho as [e Hv | x d Hv Hf | x r m s Hv Ha Hp Hb Ht | x r m Hv Ha Hp Hb Ht
                 | x r u Hv Ha Hp Hb Hn | x r m t Hv Ha Hp Hb Ht Hs | x e' Hv He];
    first [destruct (Raise_not_Return _ _ Hres) | apply Return_inj in Hres as <-].
  - left. eexists. reflexivity.
  - left. eexists. reflexivity.
  - right. eexists. reflexivity.
  - right. eexists. reflexivity.
Qed.

Lemma well_shaped_error w msg : well_shaped (envelope w error "" (Some msg)).
Proof.
  split.
  - reflexivity.
  - right. reflexivity.
  - split; [intros _; eexists; split; [reflexivity|discriminate] | reflexivity].
  - reflexivity.
  - intros H. discriminate H.
  - exists (elapsed_ms w). reflexivity.
Qed.

Lemma well_shaped_success w s : well_shaped (envelope w success s None).
Proof.
  split.
  - reflexivity.
  - left. reflexivity.
  - split; [intros H; discriminate H|].
    intros (v & Hv & Hnull). destruct Hnull. injection Hv as <-. reflexivity.
  - intros H. discriminate H.
  - reflexivity.
  - exists (elapsed_ms w). reflexivity.
Qed.

(** C6, as the code has it: every envelope the handler returns, on the
    success path and on both error paths, has the six fields, status
    "error" exactly when error_message is not null, an empty text_output
    when status is "error", a null error_message when status is "success",
    and an integer execution_time_ms, whatever the clock does; and
    execution_time_ms is at least 0, so that the envelope is well formed,
    provided the wall clock was not set back between the two readings of
    the invocation. *)
Theorem envelope_well_formed job w v w' :
  handler job w = (Return v, w') →
  well_shaped v
  ∧ ∃ n, field v "execution_time_ms" = Some (PInt n)
         ∧ ((start_time_at w <= end_time_at w)%Q → 0 ≤ n ∧ well_formed v).
Proof.
  intros Hrun.
  destruct (handler_returns_envelope _ _ _ _ Hrun) as [[msg ->] | [s ->]].
  - split; [apply well_shaped_error|]. exists (elapsed_ms w).
    split; [reflexivity|]. intros Hclock%elapsed_ms_nonneg.
    split; [exact Hclock | apply well_formed_error, Hclock].
  - split; [apply well_shaped_success|]. exists (elapsed_ms w).
    split; [reflexivity|]. intros Hclock%elapsed_ms_nonneg.
    split; [exact Hclock | apply well_formed_success, Hclock].
Qed.

(** ** The model name *)

Lemma handler_model_name job w v w' :
  handler job w = (Return v, w') →
  field v "model_name" = Some (PStr (model_name_at w)).
Proof.
  intros Hrun.
  destruct (handler_returns_envelope _ _ _ _ Hrun) as [[? ->] | [? ->]]; reflexivity.
Qed.

(** C7, as the code has it: the handler reads MODEL_NAME from the
    environment at every invocation.  The model_name of an envelope is the
    value the variable has when that invocation runs ("unknown" if unset);
    the handler leaves the environment as it found it; and two invocations
    return the same model_name whenever the variable has the same value at
    both. *)
Theorem model_name_read_per_invocation job1 job2 w1 w2 v1 v2 w1' w2' :
  handler job1 w1 = (Return v1, w1') →
  handler job2 w2 = (Return v2, w2') →
  field v1 "model_name" = Some (PStr (default "unknown" (environ w1 !! "MODEL_NAME")))
  ∧ environ w1' = environ w1
  ∧ (environ w1 !! "MODEL_NAME" = environ w2 !! "MODEL_NAME" →
     field v1 "model_name" = field v2 "model_name").
Proof.
  intros H1 H2.
  rewrite (handler_model_name _ _ _ _ H1), (handler_model_name _ _ _ _ H2).
  split; [done|]. split.
  - pose proof (handler_environ job1 w1) as He. by rewrite H1 in He.
  - unfold model_name_at. by intros ->.
Qed.

Lemma downstream_fails_environ w env x detail :
  downstream_fails w x detail → downstream_fails (set_environ env w) x detail.
Proof.
  intros [msg Ha | r Ha Hs | r Ha Hs | r msg Ha Hp Hc].
  - by apply Transport.
  - by apply ClientError.
  - by apply ServerError.
  - by eapply NotJson.
Qed.

(** Of the environment only the value of MODEL_NAME matters. *)
Lemma escapes_environ w env x e :
  escapes w x e → escapes (set_environ env w) x e.
Proof.
  intros [msg Ha | r msg Ha Hp Hc | r msg Ha Hp Hc].
  - by apply EncoderTooDeep.
  - by eapply DecoderIntTooLong.
  - by eapply DecoderTooDeep.
Qed.

Lemma outcome_environ job w env res posted :
  model_name_at (set_environ env w) = model_name_at w →
  outcome job w res posted →
  outcome job (set_environ env w) res posted.
Proof.
  intros Hm Ho.
  assert (∀ st txt err, envelope w st txt err = envelope (set_environ env w) st txt err)
    as He by (intros; unfold envelope; by rewrite Hm).
  destruct Ho as [e Hv | x d Hv Hf | x r m s Hv Ha Hp Hb Ht | x r m Hv Ha Hp Hb Ht
                 | x r v Hv Ha Hp Hb Hn | x r m t Hv Ha Hp Hb Ht Hs | x e' Hv Hesc];
    rewrite ?He.
  - exact (Invalid _ (set_environ env w) e Hv).
  - exact (Failed _ (set_environ env w) x d Hv (downstream_fails_environ _ env _ _ Hf)).
  - exact (Generated _ (set_environ env w) x r m s Hv Ha Hp Hb Ht).
  - exact (NoText _ (set_environ env w) x r m Hv Ha Hp Hb Ht).
  - exact (NotObject _ (set_environ env w) x r v Hv Ha Hp Hb Hn).
  - exact (TextNotStr _ (set_environ env w) x r m t Hv Ha Hp Hb Ht Hs).
  - exact (Escapes _ (set_environ env w) x e' Hv (escapes_environ _ env _ _ Hesc)).
Qed.

(** C10: when MODEL_NAME is unset as the handler runs, every envelope it
    returns, on the success path and on the error paths, has the model_name
    "unknown"; and the invocation goes exactly as if the variable were set
    to "unknown": an unset variable makes no invocation fail. *)
Theorem model_name_defaults_to_unknown job w :
  environ w !! "MODEL_NAME" = None →
  (∀ v w', handler job w = (Return v, w') →
     field v "model_name" = Some (PStr "unknown"))
  ∧ fst (handler job w)
    = fst (handler job (set_environ (<["MODEL_NAME" := "unknown"]> (environ w)) w)).
Proof.
  intros Hunset. split.
  - intros v w' Hrun. rewrite (handler_model_name _ _ _ _ Hrun).
    unfold model_name_at. by rewrite Hunset.
  - destruct (outcome_total job w) as (res & posted & Ho).
    assert (outcome job (set_environ (<["MODEL_NAME" := "unknown"]> (environ w)) w)
              res posted) as Ho'.
    { apply outcome_environ; [|done]. unfold model_name_at. simpl.
      by rewrite lookup_insert_eq, Hunset. }
    destruct (outcome_run _ _ _ _ Ho) as (? & -> & _).
    by destruct (outcome_run _ _ _ _ Ho') as (? & -> & _).
Qed.


(** ** Inputs the handler turns away *)

Lemma valid_input_spec job_input :
  valid_input job_input = true ↔ ∃ x, parse_obj job_input = inr x.
Proof.
  destruct job_input as [| | | | | |d];
    try (split; [discriminate | intros [? [=]]]).
  unfold valid_input, parse_obj, validate_prompt, validate_sampling_params.
  destruct (d !! "prompt") as [[]|], (d !! "sampling_params") as [[]|];
    split; first [done | discriminate | by intros [? [=]] | eauto].
Qed.

Lemma valid_job_spec job : valid_job job = true ↔ ∃ x, validate job = inr x.
Proof.
  unfold valid_job, validate, getitem.
  destruct job as [| | | | | |j]; try (split; [discriminate | intros [? [=]]]).
  destruct (j !! "input") as [i|]; [apply valid_input_spec|].
  split; [discriminate | intros [? [=]]].
Qed.

Lemma valid_job_false job : valid_job job = false ↔ ∃ e, validate job = inl e.
Proof.
  rewrite <- not_true_iff_false, valid_job_spec.
  destruct (validate job) as [e|x]; split; eauto.
  - intros _ [? [=]].
  - intros H. destruct H. eauto.
  - intros [? [=]].
Qed.

Lemma request_for_valid w job x :
  validate job = inr x → request_for (base_url w) job = Some (request_of w x).
Proof. unfold request_for. by intros ->. Qed.

Lemma request_for_invalid base job e :
  validate job = inl e → request_for base job = None.
Proof. unfold request_for. by intros ->. Qed.

Lemma handler_posts_nothing job w e :
  validate job = inl e → sent (snd (handler job w)) = sent w.
Proof. intros Hv. by rewrite (handler_invalid _ _ _ Hv). Qed.

(** X1: a job that has no "input" key is not a crash: the [KeyError] is
    captured, the envelope has status "error", an empty text_output and the
    error_message "Input validation failed: 'input'", and nothing is posted. *)
Theorem missing_input_envelope j w :
  j !! "input" = None →
  ∃ v w',
    handler (PDict j) w = (Return v, w')
    ∧ field v "status" = Some (PStr "error")
    ∧ field v "text_output" = Some (PStr "")
    ∧ field v "error_message" = Some (PStr "Input validation failed: 'input'")
    ∧ sent w' = sent w.
Proof.
  intros Hj.
  assert (validate (PDict j) = inl (KeyError "input")) as Hv
    by (unfold validate, getitem; by rewrite Hj).
  eexists _, _. split; [exact (handler_invalid _ _ _ Hv)|].
  repeat split.
Qed.

(** X2: an input that is not a mapping, or whose sampling parameters are
    present and not a mapping, fails validation even with a good prompt: the
    envelope has status "error", an empty text_output, and an error_message
    made of "Input validation failed: " and the text of pydantic's error for
    APIInput; nothing is posted. *)
Theorem malformed_input_envelope j job_input w :
  j !! "input" = Some job_input →
  (type_name job_input ≠ "dict"
   ∨ ∃ d v, job_input = PDict d ∧ d !! "sampling_params" = Some v
            ∧ type_name v ≠ "dict") →
  ∃ errors v w',
    validate (PDict j) = inl (ValidationError "APIInput" errors)
    ∧ handler (PDict j) w = (Return v, w')
    ∧ field v "status" = Some (PStr "error")
    ∧ field v "text_output" = Some (PStr "")
    ∧ field v "error_message"
      = Some (PStr ("Input validation failed: "
                      ++ validation_error_str "APIInput" errors))
    ∧ sent w' = sent w.
Proof.
  intros Hj Hbad.
  assert (∃ errors, validate (PDict j) = inl (ValidationError "APIInput" errors))
    as [errors Hv].
  { unfold validate, getitem. rewrite Hj.
    destruct Hbad as [Hi | (d & v & -> & Hs & Hv)].
    - destruct job_input; first [by destruct Hi | simpl; eauto].
    - unfold parse_obj, validate_sampling_params. rewrite Hs.
      destruct v; first [by destruct Hv | destruct (validate_prompt d); eauto]. }
  eexists errors, _, _. split; [exact Hv|].
  split; [exact (handler_invalid _ _ _ Hv)|]. repeat split.
Qed.

Lemma handler_sent job w :
  sent (snd (handler job w))
  = (sent w ++ option_list (request_for (base_url w) job))%list.
Proof.
  destruct (validate job) as [e|x] eqn:Hv.
  - rewrite (request_for_invalid _ _ _ Hv), (handler_posts_nothing _ _ _ Hv).
    symmetry. apply app_nil_r.
  - rewrite (request_for_valid _ _ _ Hv). by apply handler_posts.
Qed.

Lemma request_for_is_Some base job :
  is_Some (request_for base job) ↔ valid_job job = true.
Proof.
  rewrite valid_job_spec. unfold request_for.
  destruct (validate job) as [e|x]; split; eauto.
  - by intros [? [=]].
  - by intros [? [=]].
Qed.

(** X3: an invocation posts at most one request, and whether it posts is
    decided by the input alone: one request when the input is valid (a
    mapping with a text prompt and sampling parameters absent or a mapping),
    none otherwise, whatever the server would have answered. *)
Theorem posts_iff_valid job w :
  sent (snd (handler job w))
  = (sent w ++ option_list (request_for (base_url w) job))%list
  ∧ (is_Some (request_for (base_url w) job) ↔ valid_job job = true).
Proof. split; [apply handler_sent | apply request_for_is_Some]. Qed.

Lemma handler_validate_ext job1 job2 w :
  validate job1 = validate job2 → handler job1 w = handler job2 w.
Proof. intros Hv. unfold handler. by rewrite Hv. Qed.

(** X4: of a valid job, only the prompt and the sampling parameters of its
    input matter.  When a job is valid, any job whose input agrees with it
    on these two keys is handled alike (same result, same request, same
    final world), whatever other keys the jobs or their inputs carry.  (For
    an invalid job the error message quotes the input, other keys
    included.) *)
Theorem handler_ignores_other_keys j1 j2 d1 d2 w :
  j1 !! "input" = Some (PDict d1) →
  j2 !! "input" = Some (PDict d2) →
  d1 !! "prompt" = d2 !! "prompt" →
  d1 !! "sampling_params" = d2 !! "sampling_params" →
  valid_job (PDict j1) = true →
  handler (PDict j1) w = handler (PDict j2) w.
Proof.
  intros H1 H2 Hp Hs [x Hx]%valid_job_spec.
  apply handler_validate_ext. rewrite Hx. symmetry.
  apply validate_inr in Hx as (j & [= <-] & i & Hi & Hparse).
  rewrite H1 in Hi. injection Hi as <-.
  apply parse_obj_inr in Hparse as (d & [= <-] & Hpx & Hsx).
  apply validate_inr. exists j2. split; [done|].
  exists (PDict d2). split; [done|].
  apply parse_obj_inr. exists d2. rewrite <- Hp, <- Hs. auto.
Qed.

(** X5: from the caller's input to the wire.  For an input with the text
    prompt [p], the one request posted goes to [base_url ++ "/generate"]
    with the single header Content-Type: application/json, and its body is
    the dict of "text", [p], and "sampling_params", the caller's mapping
    with "stream" set to false; when the caller gave no sampling parameters
    the mapping sent is just "stream": false. *)
Theorem request_of_raw_input j d p sp w :
  j !! "input" = Some (PDict d) →
  d !! "prompt" = Some (PStr p) →
  (d !! "sampling_params" = None ∧ sp = ∅
   ∨ d !! "sampling_params" = Some (PDict sp)) →
  sent (snd (handler (PDict j) w))
  = (sent w
     ++ [mkRequest (base_url w ++ "/generate")
           (PDict (<["text" := PStr p]>
                   {["sampling_params" := PDict (<["stream" := PBool false]> sp)]}))
           {["Content-Type" := "application/json"]}])%list.
Proof.
  intros Hj Hp Hs.
  assert (validate (PDict j) = inr (mkAPIInput p sp)) as Hv.
  { apply validate_inr. exists j. split; [done|]. exists (PDict d). split; [done|].
    apply parse_obj_inr. exists d. simpl. destruct Hs as [[? ?] | ?]; auto. }
  exact (handler_posts _ _ _ Hv).
Qed.


(** ** Answers the handler does not expect *)

(** X6: a body that is not JSON, under a status that [raise_for_status]
    lets through, is a failure of the call like any other: the envelope has
    status "error", an empty text_output and the error_message "Request to
    SGLang server failed: " followed by the decoder's message; the request
    was posted once. *)
Theorem not_json_envelope job w x r msg :
  validate job = inr x →
  answer w x = PostReturns r →
  ¬ (400 ≤ status_code r < 600) →
  content r = BodyNotJson msg →
  downstream_error (handler job w) msg
  ∧ sent (snd (handler job w)) = (sent w ++ [request_of w x])%list.
Proof.
  intros Hv Ha Hs Hc. split; [|by apply handler_posts].
  apply (downstream_fails_error _ _ _ _ Hv).
  apply (NotJson _ _ r); [done | by apply passes_spec | done].
Qed.

Lemma passes_false r : 400 ≤ status_code r < 600 → passes r = false.
Proof.
  intros Hs. unfold passes. by rewrite bool_decide_eq_true_2.
Qed.

Lemma captured_return job w v posted :
  outcome job w (Return v) posted → captured job w = true.
Proof.
  unfold captured. intros Ho. remember (Return v) as res eqn:Hres.
  destruct Ho as [e Hv | x d Hv Hf | x r m s Hv Ha Hp Hb Ht | x r m Hv Ha Hp Hb Ht
                 | x r u Hv Ha Hp Hb Hn | x r m t Hv Ha Hp Hb Ht Hs | x e' Hv He];
    first [destruct (Raise_not_Return _ _ Hres) | clear Hres]; rewrite Hv.
  - reflexivity.
  - destruct Hf as [msg Ha | r Ha Hs | r Ha Hs | r msg Ha Hp Hc]; rewrite Ha.
    + reflexivity.
    + rewrite passes_false by lia. reflexivity.
    + rewrite passes_false by lia. reflexivity.
    + rewrite Hp, Hc. reflexivity.
  - rewrite Ha, Hp, Hb. simpl. by rewrite Ht.
  - rewrite Ha, Hp, Hb. simpl. by rewrite Ht.
Qed.

(** X7: when the handler raises.  An exception leaves the handler exactly
    when the input was valid and either the JSON encoder of [requests.post]
    exceeded the recursion limit on the payload, or the server's answer
    passed [raise_for_status] and [Response.json()] raised something other
    than a JSON decode error (a [ValueError] for an integer beyond the digit
    limit, a [RecursionError] for nesting beyond the recursion limit), or
    the JSON body is not an object, or it is an object whose "text" is not a
    string.  Whatever leaves the handler is one of these [ValueError],
    [RecursionError], [AttributeError] or pydantic's [ValidationError] for
    APIOutput, never a [RequestException], and the call to [requests.post]
    had been made. *)
Theorem handler_raises_iff job w :
  ((∃ e w', handler job w = (Raise e, w')) ↔ captured job w = false)
  ∧ (∀ e w', handler job w = (Raise e, w') →
       is_RequestException e = false
       ∧ (∃ x, validate job = inr x
               ∧ sent w' = (sent w ++ [request_of w x])%list)
       ∧ ((∃ msg, e = ValueError msg)
          ∨ (∃ msg, e = RecursionError msg)
          ∨ (∃ t, e = AttributeError ("'" ++ t ++ "' object has no attribute 'get'"))
          ∨ (∃ t, e = ValidationError "APIOutput"
                        [LineError ["text_output"] "string_type" t]))).
Proof.
  split; [split|].
  - intros (e & w' & Hrun). apply not_true_iff_false. intros Hc.
    pose proof (handler_outcome job w) as Ho. rewrite Hrun in Ho.
    exact (captured_not_raise _ _ _ _ Hc Ho).
  - intros Hc. destruct (outcome_total job w) as (res & posted & Ho).
    destruct res as [v|e];
      [rewrite (captured_return _ _ _ _ Ho) in Hc; discriminate Hc|].
    destruct (outcome_run _ _ _ _ Ho) as (w' & Hrun & _). eauto.
  - intros e w' Hrun.
    pose proof (handler_outcome job w) as Ho. rewrite Hrun in Ho.
    cbn [fst snd] in Ho.
    remember (Raise e) as res eqn:Hres. remember (sent w') as posted eqn:Hposted.
    destruct Ho as [e' Hv | x d Hv Hf | x r m s Hv Ha Hp Hb Ht | x r m Hv Ha Hp Hb Ht
                   | x r u Hv Ha Hp Hb Hn | x r m t Hv Ha Hp Hb Ht Hs | x e' Hv He];
      try discriminate Hres; injection Hres as <-.
    + split; [reflexivity|]. split; [eauto|]. right. right. left. eauto.
    + split; [reflexivity|]. split; [eauto|]. right. right. right. eauto.
    + split; [|split; [eauto|]].
      * by destruct He.
      * destruct He; [right; left | left | right; left]; eauto.
Qed.

(** ** What an invocation touches *)

Lemma outcome_world job w res posted :
  outcome job w res posted →
  handler job w = (res, finished w posted)
  ∨ handler job w = (res, aborted w posted) ∧ ∃ e, res = Raise e.
Proof.
  intros [e Hv | x d Hv Hf | x r m s Hv Ha Hp Hc Ht | x r m Hv Ha Hp Hc Ht
         | x r v Hv Ha Hp Hc Hn | x r m t Hv Ha Hp Hc Ht Hs | x e Hv He].
  - left. exact (handler_invalid _ _ _ Hv).
  - left. exact (handler_failed _ _ _ _ Hv Hf).
  - left. exact (handler_generated _ _ _ _ _ _ Hv Ha Hp Hc Ht).
  - left. exact (handler_no_text _ _ _ _ _ Hv Ha Hp Hc Ht).
  - right. split; [exact (handler_not_object _ _ _ _ _ Hv Ha Hp Hc Hn)|eauto].
  - left. exact (handler_text_not_str _ _ _ _ _ _ Hv Ha Hp Hc Ht Hs).
  - right. split; [exact (handler_escapes _ _ _ _ Hv He)|eauto].
Qed.

Lemma same_process_refl w : same_process w w.
Proof. by split. Qed.

Lemma same_process_trans w1 w2 w3 :
  same_process w1 w2 → same_process w2 w3 → same_process w1 w3.
Proof. intros [] []. split; congruence. Qed.

Lemma handler_same_process job w :
  same_process w (snd (handler job w))
  ∧ uuid_reads (snd (handler job w)) = S (uuid_reads w).
Proof.
  destruct (outcome_total job w) as (res & posted & Ho).
  destruct (outcome_world _ _ _ _ Ho) as [-> | [-> _]]; by repeat split.
Qed.

(** X8: the footprint of one invocation.  Whatever the input and the
    server, an invocation draws exactly one UUID, reads the clock twice when
    it returns an envelope (once or twice when it raises), and leaves the
    environment, the clock, the UUID source, the base URL and the server as
    they were. *)
Theorem handler_footprint job w :
  same_process w (snd (handler job w))
  ∧ uuid_reads (snd (handler job w)) = S (uuid_reads w)
  ∧ (S (clock_reads w) ≤ clock_reads (snd (handler job w)) ≤ S (S (clock_reads w)))%nat
  ∧ (∀ v, fst (handler job w) = Return v →
       clock_reads (snd (handler job w)) = S (S (clock_reads w))).
Proof.
  destruct (handler_same_process job w) as [Hsame Huuid].
  split; [exact Hsame|]. split; [exact Huuid|].
  destruct (outcome_total job w) as (res & posted & Ho).
  destruct (outcome_world _ _ _ _ Ho) as [-> | [-> [e ->]]]; simpl.
  - split; [lia|done].
  - split; [lia|]. intros v Hv. destruct (Raise_not_Return _ _ Hv).
Qed.


(** ** Successive invocations in one process *)

Lemma serve_cons job jobs w :
  serve (job :: jobs) w
  = (fst (handler job w) :: fst (serve jobs (snd (handler job w))),
     snd (serve jobs (snd (handler job w)))).
Proof.
  cbn [serve]. destruct (handler job w) as [res w1]. cbn [fst snd].
  by destruct (serve jobs w1).
Qed.

(** The invocation at position [i] of a run starts in a world of the same
    process in which [i] UUIDs more have been drawn. *)
Lemma serve_lookup jobs : ∀ w i res,
  fst (serve jobs w) !! i = Some res →
  ∃ job wi,
    jobs !! i = Some job
    ∧ fst (handler job wi) = res
    ∧ same_process w wi
    ∧ uuid_reads wi = (uuid_reads w + i)%nat.
Proof.
  induction jobs as [|job jobs IH]; intros w i res Hi; [discriminate Hi|].
  rewrite serve_cons in Hi. cbn [fst] in Hi.
  destruct i as [|i].
  - injection Hi as <-. exists job, w.
    split; [reflexivity|]. split; [reflexivity|].
    split; [apply same_process_refl | lia].
  - destruct (IH _ _ _ Hi) as (job' & wi & Hjob & Hres & Hsame & Hreads).
    destruct (handler_same_process job w) as [Hstep Huuid].
    exists job', wi. split; [exact Hjob|]. split; [exact Hres|].
    split; [exact (same_process_trans _ _ _ Hstep Hsame)|]. lia.
Qed.

Lemma handler_request_id job w v :
  fst (handler job w) = Return v →
  field v "request_id" = Some (PStr (uuids w (uuid_reads w))).
Proof.
  intros Hres.
  destruct (handler_returns_envelope job w v (snd (handler job w)))
    as [[? ->] | [? ->]]; [|reflexivity..].
  rewrite <- Hres. apply surjective_pairing.
Qed.

Lemma serve_request_id jobs w i v :
  fst (serve jobs w) !! i = Some (Return v) →
  field v "request_id" = Some (PStr (uuids w (uuid_reads w + i))).
Proof.
  intros (job & wi & _ & Hres & [_ _ Hu _ _] & Hreads)%serve_lookup.
  rewrite (handler_request_id _ _ _ Hres). by rewrite Hu, Hreads.
Qed.

(** X9: request ids are not reused.  In a run of invocations in one
    process, the envelope returned at position [i] carries the UUID drawn at
    that invocation; so when the UUID source never repeats itself, the
    envelopes of two different invocations, even for the same input, have
    different request ids. *)
Theorem request_ids_distinct jobs w i k vi vk :
  Inj (=) (=) (uuids w) →
  i ≠ k →
  fst (serve jobs w) !! i = Some (Return vi) →
  fst (serve jobs w) !! k = Some (Return vk) →
  field vi "request_id" ≠ field vk "request_id".
Proof.
  intros Hinj Hik Hi Hk.
  rewrite (serve_request_id _ _ _ _ Hi), (serve_request_id _ _ _ _ Hk).
  intros [= Heq]. apply Hinj in Heq. lia.
Qed.

(** X10: within one process whose environment nobody changes, the model
    name is constant: every envelope returned in a run of invocations
    carries the value MODEL_NAME had when the run began ("unknown" if it
    was unset), because no invocation writes to the environment. *)
Theorem serve_model_name jobs w i v :
  fst (serve jobs w) !! i = Some (Return v) →
  field v "model_name" = Some (PStr (default "unknown" (environ w !! "MODEL_NAME"))).
Proof.
  intros (job & wi & _ & Hres & [He _ _ _ _] & _)%serve_lookup.
  rewrite (handler_model_name job wi v (snd (handler job wi))).
  - unfold model_name_at. by rewrite He.
  - rewrite <- Hres. apply surjective_pairing.
Qed.

Lemma request_for_non_streaming base job rq :
  request_for base job = Some rq → non_streaming base rq.
Proof.
  unfold request_for. destruct (validate job) as [e|x]; [discriminate|].
  intros [= <-]. split; [reflexivity|]. split; [reflexivity|].
  eexists. split; [apply payload_sampling_params|]. apply lookup_insert_eq.
Qed.

Lemma omap_request_for_length base jobs :
  length (omap (request_for base) jobs) = length (List.filter valid_job jobs).
Proof.
  induction jobs as [|job jobs IH]; [reflexivity|]. cbn [omap list_omap List.filter].
  pose proof (request_for_is_Some base job) as Hv.
  destruct (request_for base job) as [rq|], (valid_job job); simpl.
  - by rewrite IH.
  - assert (false = true) as [=] by (apply Hv; eauto).
  - destruct (proj2 Hv eq_refl) as [? [=]].
  - exact IH.
Qed.

(** X11: the log of a run.  Over any run of invocations the handler posts
    one request per valid job, in the order of the jobs, and nothing else:
    no retry, and nothing for an invalid job.  Every request it posts goes
    to [base_url ++ "/generate"] with the JSON content type and has
    "stream" false in its sampling parameters. *)
Theorem serve_log jobs w :
  sent (snd (serve jobs w)) = (sent w ++ omap (request_for (base_url w)) jobs)%list
  ∧ length (omap (request_for (base_url w)) jobs) = length (List.filter valid_job jobs)
  ∧ Forall (non_streaming (base_url w)) (omap (request_for (base_url w)) jobs).
Proof.
  split; [|split].
  - revert w. induction jobs as [|job jobs IH]; intros w.
    + symmetry. apply app_nil_r.
    + rewrite serve_cons. cbn [snd]. rewrite IH, handler_sent.
      destruct (handler_same_process job w) as [[_ _ _ -> _] _].
      rewrite <- app_assoc. f_equal. cbn [omap list_omap].
      by destruct (request_for (base_url w) job).
  - apply omap_request_for_length.
  - apply Forall_forall. intros rq (job & _ & Hrq)%list_elem_of_omap.
    exact (request_for_non_streaming _ _ _ Hrq).
Qed.

End Handler.

(** ** The properties at sample inputs *)

Abbreviation run := (handler sample_validation_error_str).

(** The scenario of the service: the prompt "Say hi", the server answering
    [{"text": "Hi!"}]. *)
Example say_hi_scenario :
  fst (run job_say_hi (world_with ∅ ticking (replies 200 "OK" (says "Hi!"))))
  = Return (model_dump (mkAPIOutput "uuid-0" "unknown" 1000 success "Hi!" None)).
Proof. vm_compute. reflexivity. Qed.

(** A caller that asks for streaming and a temperature of 0.7: the body
    sent has "stream" false and the temperature as given. *)
#[warnings="-inexact-float"]
Example stream_true_is_overridden :
  (λ rq, (req_url rq, field (req_json rq) "text", field (req_json rq) "sampling_params"))
    <$> sent (snd (run job_stream_true (world_with ∅ ticking refuses)))
  = [("http://0.0.0.0:30000/generate", Some (PStr "Say hi"),
      Some (PDict (<["stream" := PBool false]> {["temperature" := PFloat 0.7%float]})))].
Proof. vm_compute. reflexivity. Qed.

(** A status of 500 and a refused connection. *)
Example status_500_is_an_error :
  fst (run job_say_hi (world_with ∅ ticking (replies 500 "Internal Server Error" (says ""))))
  = Return (model_dump (mkAPIOutput "uuid-0" "unknown" 1000 error ""
      (Some "Request to SGLang server failed: 500 Server Error: Internal Server Error for url: http://0.0.0.0:30000/generate"))).
Proof. vm_compute. reflexivity. Qed.



Lemma payload_forces_stream_false_witness :
  ∃ (rq : http_request) (sp : gmap string pyval),
    sent (snd (run job_say_hi (world_with ∅ ticking refuses))) = [rq]
    ∧ keys (req_json rq) = Some {[ "text"; "sampling_params" ]}
    ∧ field (req_json rq) "text" = Some (PStr "Say hi")
    ∧ field (req_json rq) "sampling_params" = Some (PDict sp)
    ∧ sp = <["stream" := PBool false]> {["max_new_tokens" := PInt 5]}
    ∧ sp !! "stream" = Some (PBool false)
    ∧ ∀ k, k ≠ "stream" → sp !! k = ({["max_new_tokens" := PInt 5]} : gmap string pyval) !! k.
Proof.
  apply (payload_forces_stream_false sample_validation_error_str job_say_hi
           (world_with ∅ ticking refuses) say_hi).
  vm_compute. reflexivity.
Defined.

(** What comes out of the encoder or the decoder and is not a
    [RequestException] leaves the handler. *)
Example decoder_exceptions_escape :
  fst (run job_say_hi
         (world_with ∅ ticking
            (replies 200 "OK"
               (BodyIntTooLong "Exceeds the limit (4300 digits) for integer string conversion"))))
  = Raise (ValueError "Exceeds the limit (4300 digits) for integer string conversion")
  ∧ fst (run job_say_hi
           (world_with ∅ ticking
              (replies 200 "OK" (BodyTooDeep "maximum recursion depth exceeded"))))
    = Raise (RecursionError "maximum recursion depth exceeded")
  ∧ fst (run job_say_hi
           (world_with ∅ ticking (λ _ _, PostEscapes "maximum recursion depth exceeded")))
    = Raise (RecursionError "maximum recursion depth exceeded").
Proof. repeat split; vm_compute; reflexivity. Qed.

(** C3 fails as stated: 300 is not a 2xx status, [raise_for_status] lets it
    through, and with a JSON body the outcome is a success. *)
Lemma status_300_is_a_success :
  fst (run job_say_hi
         (world_with ∅ ticking (replies 300 "Multiple Choices" (says "hi"))))
  = Return (model_dump (mkAPIOutput "uuid-0" "unknown" 1000 success "hi" None)).
Proof. vm_compute. reflexivity. Qed.

Lemma downstream_failure_envelope_witness :
  downstream_error (run job_say_hi (world_with ∅ ticking refuses)) "Connection refused"
  ∧ ∃ kind, (kind = "Client" ∨ kind = "Server")
            ∧ downstream_error
                (run job_say_hi (world_with ∅ ticking (replies 404 "Not Found" (says ""))))
                ("404 " ++ kind ++ " Error: Not Found for url: http://0.0.0.0:30000/generate").
Proof.
  split.
  - apply (proj1 (downstream_failure_envelope sample_validation_error_str job_say_hi
                    (world_with ∅ ticking refuses) say_hi eq_refl)).
    reflexivity.
  - apply (proj2 (downstream_failure_envelope sample_validation_error_str job_say_hi
                    (world_with ∅ ticking (replies 404 "Not Found" (says "")))
                    say_hi eq_refl)
             (mkResponse 404 "Not Found" "http://0.0.0.0:30000/generate" (says ""))).
    + reflexivity.
    + simpl. lia.
Defined.

Lemma invalid_prompt_envelope_witness :
  ∃ e v w',
    validate job_prompt_int = inl e
    ∧ run job_prompt_int (world_with ∅ ticking refuses) = (Return v, w')
    ∧ field v "status" = Some (PStr "error")
    ∧ field v "text_output" = Some (PStr "")
    ∧ (∃ rest, field v "error_message"
               = Some (PStr ("Input validation failed:" ++ rest)))
    ∧ sent w' = [].
Proof.
  apply (invalid_prompt_envelope sample_validation_error_str
           (<["id" := PStr "job-1"]> {["input" := PDict {["prompt" := PInt 7]}]})
           {["prompt" := PInt 7]} (world_with ∅ ticking refuses)).
  - reflexivity.
  - right. exists (PInt 7). split; reflexivity.
Defined.


(** C6 fails as stated: [time.time()] is the wall clock, and when it is set
    back between the two readings the envelope carries a negative
    execution_time_ms. *)
Lemma negative_execution_time :
  fst (run job_say_hi (world_with ∅ set_back (replies 200 "OK" (says "Hi!"))))
  = Return (model_dump (mkAPIOutput "uuid-0" "unknown" (-5000) success "Hi!" None))
  ∧ ¬ well_formed (model_dump (mkAPIOutput "uuid-0" "unknown" (-5000) success "Hi!" None)).
Proof.
  split; [vm_compute; reflexivity|].
  intros [_ _ _ _ _ (n & Hn & Hpos)].
  change (Some (PInt (-5000)) = Some (PInt n)) in Hn. injection Hn as Hn. lia.
Qed.

Lemma envelope_well_formed_witness :
  well_shaped (model_dump (mkAPIOutput "uuid-0" "unknown" 1000 success "Hi!" None))
  ∧ ∃ n, field (model_dump (mkAPIOutput "uuid-0" "unknown" 1000 success "Hi!" None))
           "execution_time_ms" = Some (PInt n)
         ∧ 0 ≤ n
         ∧ well_formed (model_dump (mkAPIOutput "uuid-0" "unknown" 1000 success "Hi!" None)).
Proof.
  assert (run job_say_hi (world_with ∅ ticking (replies 200 "OK" (says "Hi!")))
          = (Return (model_dump (mkAPIOutput "uuid-0" "unknown" 1000 success "Hi!" None)),
             snd (run job_say_hi (world_with ∅ ticking (replies 200 "OK" (says "Hi!"))))))
    as Hrun by (vm_compute; reflexivity).
  destruct (envelope_well_formed sample_validation_error_str _ _ _ _ Hrun)
    as (Hshape & n & Hn & Hclock).
  split; [exact Hshape|]. exists n. split; [exact Hn|].
  apply Hclock. vm_compute. discriminate.
Defined.

(** With the clock set back the envelope keeps its shape: only the sign of
    execution_time_ms is lost. *)
Example set_back_keeps_the_shape :
  well_shaped (model_dump (mkAPIOutput "uuid-0" "unknown" (-5000) success "Hi!" None)).
Proof.
  split.
  - reflexivity.
  - left. reflexivity.
  - split; [intros H; discriminate H|].
    intros (v & Hv & Hnull). destruct Hnull. injection Hv as <-. reflexivity.
  - intros H. discriminate H.
  - reflexivity.
  - eexists. reflexivity.
Qed.

(** C7 fails as stated: when the variable is changed between two invocations
    of the same process, the second envelope carries the new value. *)
Lemma model_name_follows_environ :
  fst (run job_say_hi world_model_a)
  = Return (model_dump (mkAPIOutput "uuid-0" "model-a" 1000 success "Hi!" None))
  ∧ fst (run job_say_hi
           (set_environ {["MODEL_NAME" := "model-b"]} (snd (run job_say_hi world_model_a))))
    = Return (model_dump (mkAPIOutput "uuid-1" "model-b" 1000 success "Hi!" None)).
Proof. split; vm_compute; reflexivity. Qed.

Lemma model_name_read_per_invocation_witness :
  field (model_dump (mkAPIOutput "uuid-0" "model-a" 1000 success "Hi!" None)) "model_name"
  = Some (PStr (default "unknown" (environ world_model_a !! "MODEL_NAME")))
  ∧ environ (snd (run job_say_hi world_model_a)) = environ world_model_a
  ∧ (environ world_model_a !! "MODEL_NAME"
     = environ (snd (run job_say_hi world_model_a)) !! "MODEL_NAME" →
     field (model_dump (mkAPIOutput "uuid-0" "model-a" 1000 success "Hi!" None)) "model_name"
     = field (model_dump (mkAPIOutput "uuid-1" "model-a" 1000 success "Hi!" None)) "model_name").
Proof.
  apply (model_name_read_per_invocation sample_validation_error_str
           job_say_hi job_say_hi
           world_model_a (snd (run job_say_hi world_model_a)) _ _
           (snd (run job_say_hi world_model_a))
           (snd (run job_say_hi (snd (run job_say_hi world_model_a)))));
    vm_compute; reflexivity.
Defined.

(** C8 fails as stated: the empty prompt passes validation. *)
Lemma empty_prompt_is_valid :
  validate job_empty_prompt = inr (mkAPIInput "" ∅).
Proof. vm_compute. reflexivity. Qed.

Lemma validate_accepts_empty_prompt_witness :
  ∃ x, validate job_empty_prompt = inr x ∧ prompt x = "".
Proof.
  apply (validate_accepts_empty_prompt
           (<["id" := PStr "job-1"]> {["input" := PDict {["prompt" := PStr ""]}]})
           {["prompt" := PStr ""]}).
  - reflexivity.
  - reflexivity.
  - left. reflexivity.
Defined.

Lemma model_name_defaults_to_unknown_witness :
  (∀ v w', run job_no_prompt (world_with ∅ ticking refuses) = (Return v, w') →
     field v "model_name" = Some (PStr "unknown"))
  ∧ fst (run job_no_prompt (world_with ∅ ticking refuses))
    = fst (run job_no_prompt
             (set_environ (<["MODEL_NAME" := "unknown"]> ∅) (world_with ∅ ticking refuses))).
Proof.
  apply (model_name_defaults_to_unknown sample_validation_error_str job_no_prompt
           (world_with ∅ ticking refuses)).
  reflexivity.
Defined.

(** With MODEL_NAME unset, on the three paths. *)
Example unknown_model_name :
  fst (run job_no_prompt (world_with ∅ ticking refuses))
  = Return (model_dump (mkAPIOutput "uuid-0" "unknown" 1000 error ""
      (Some "Input validation failed: 1 validation error for APIInput")))
  ∧ fst (run job_say_hi (world_with ∅ ticking refuses))
    = Return (model_dump (mkAPIOutput "uuid-0" "unknown" 1000 error ""
        (Some "Request to SGLang server failed: Connection refused")))
  ∧ fst (run job_say_hi (world_with ∅ ticking (replies 200 "OK" (says "Hi!"))))
    = Return (model_dump (mkAPIOutput "uuid-0" "unknown" 1000 success "Hi!" None)).
Proof. repeat split; vm_compute; reflexivity. Qed.

(** ** Further properties at sample inputs *)

Lemma missing_input_envelope_witness :
  ∃ v w',
    run job_without_input (world_with ∅ ticking refuses) = (Return v, w')
    ∧ field v "status" = Some (PStr "error")
    ∧ field v "text_output" = Some (PStr "")
    ∧ field v "error_message" = Some (PStr "Input validation failed: 'input'")
    ∧ sent w' = [].
Proof.
  apply (missing_input_envelope sample_validation_error_str
           {["id" := PStr "job-1"]} (world_with ∅ ticking refuses)).
  reflexivity.
Defined.

Lemma malformed_input_envelope_witness :
  ∃ errors v w',
    validate job_null_params = inl (ValidationError "APIInput" errors)
    ∧ run job_null_params (world_with ∅ ticking refuses) = (Return v, w')
    ∧ field v "status" = Some (PStr "error")
    ∧ field v "text_output" = Some (PStr "")
    ∧ field v "error_message"
      = Some (PStr ("Input validation failed: "
                      ++ sample_validation_error_str "APIInput" errors))
    ∧ sent w' = [].
Proof.
  apply (malformed_input_envelope sample_validation_error_str
           (<["id" := PStr "job-1"]>
              {["input" := PDict (<["prompt" := PStr "Say hi"]>
                                    {["sampling_params" := PNone]})]})
           (PDict (<["prompt" := PStr "Say hi"]> {["sampling_params" := PNone]}))
           (world_with ∅ ticking refuses)).
  - reflexivity.
  - right. exists (<["prompt" := PStr "Say hi"]> {["sampling_params" := PNone]}), PNone.
    split; [reflexivity|]. split; [reflexivity|]. discriminate.
Defined.

Lemma handler_ignores_other_keys_witness :
  run job_say_hi (world_with ∅ ticking (replies 200 "OK" (says "Hi!")))
  = run job_extra_keys (world_with ∅ ticking (replies 200 "OK" (says "Hi!"))).
Proof.
  apply (handler_ignores_other_keys sample_validation_error_str
           (<["id" := PStr "job-1"]>
              {["input" := PDict (<["prompt" := PStr "Say hi"]>
                  {["sampling_params" := PDict {["max_new_tokens" := PInt 5]}]})]})
           (<["id" := PStr "job-1"]>
              {["input" := PDict (<["prompt" := PStr "Say hi"]>
                  (<["sampling_params" := PDict {["max_new_tokens" := PInt 5]}]>
                   {["user" := PStr "alice"]}))]})
           (<["prompt" := PStr "Say hi"]>
              {["sampling_params" := PDict {["max_new_tokens" := PInt 5]}]})
           (<["prompt" := PStr "Say hi"]>
              (<["sampling_params" := PDict {["max_new_tokens" := PInt 5]}]>
               {["user" := PStr "alice"]}))
           (world_with ∅ ticking (replies 200 "OK" (says "Hi!"))));
    reflexivity.
Defined.

Lemma request_of_raw_input_witness :
  sent (snd (run job_no_params (world_with ∅ ticking refuses)))
  = [mkRequest "http://0.0.0.0:30000/generate"
       (PDict (<["text" := PStr "Say hi"]>
               {["sampling_params" := PDict {["stream" := PBool false]}]}))
       {["Content-Type" := "application/json"]}].
Proof.
  apply (request_of_raw_input sample_validation_error_str
           (<["id" := PStr "job-1"]> {["input" := PDict {["prompt" := PStr "Say hi"]}]})
           {["prompt" := PStr "Say hi"]} "Say hi" ∅ (world_with ∅ ticking refuses)).
  - reflexivity.
  - reflexivity.
  - left. split; reflexivity.
Defined.

Lemma not_json_envelope_witness :
  downstream_error
    (run job_say_hi (world_with ∅ ticking (replies 200 "OK" (BodyNotJson "Expecting value"))))
    "Expecting value"
  ∧ sent (snd (run job_say_hi
                 (world_with ∅ ticking (replies 200 "OK" (BodyNotJson "Expecting value")))))
    = [request_of (world_with ∅ ticking (replies 200 "OK" (BodyNotJson "Expecting value")))
         say_hi].
Proof.
  apply (not_json_envelope sample_validation_error_str job_say_hi
           (world_with ∅ ticking (replies 200 "OK" (BodyNotJson "Expecting value")))
           say_hi
           (mkResponse 200 "OK" "http://0.0.0.0:30000/generate"
              (BodyNotJson "Expecting value"))).
  - reflexivity.
  - reflexivity.
  - simpl. lia.
  - reflexivity.
Defined.

Lemma sample_uuids_inj : Inj (=) (=) (λ n : nat, "uuid-" ++ pretty n).
Proof.
  intros a b Hab. apply (inj pretty). exact (inj (String.app "uuid-") _ _ Hab).
Qed.

(** Two invocations for the same input, in one process. *)
Example served_twice :
  fst (serve sample_validation_error_str [job_say_hi; job_say_hi]
         (world_with ∅ ticking (replies 200 "OK" (says "Hi!"))))
  = [Return (model_dump (mkAPIOutput "uuid-0" "unknown" 1000 success "Hi!" None));
     Return (model_dump (mkAPIOutput "uuid-1" "unknown" 1000 success "Hi!" None))].
Proof. vm_compute. reflexivity. Qed.

Lemma request_ids_distinct_witness :
  field (model_dump (mkAPIOutput "uuid-0" "unknown" 1000 success "Hi!" None)) "request_id"
  ≠ field (model_dump (mkAPIOutput "uuid-1" "unknown" 1000 success "Hi!" None)) "request_id".
Proof.
  apply (request_ids_distinct sample_validation_error_str [job_say_hi; job_say_hi]
           (world_with ∅ ticking (replies 200 "OK" (says "Hi!"))) 0 1).
  - exact sample_uuids_inj.
  - discriminate.
  - vm_compute. reflexivity.
  - vm_compute. reflexivity.
Defined.

Lemma serve_model_name_witness :
  field (model_dump (mkAPIOutput "uuid-1" "model-a" 1000 error ""
           (Some "Input validation failed: 1 validation error for APIInput")))
    "model_name"
  = Some (PStr (default "unknown" (environ world_model_a !! "MODEL_NAME"))).
Proof.
  apply (serve_model_name sample_validation_error_str [job_say_hi; job_no_prompt]
           world_model_a 1).
  vm_compute. reflexivity.
Defined.
